(** * StringHash.h: 32-bit FNV-1a hashing of character arrays and C strings

    A shallow embedding of [src/StringHash.h].

    - A [char] object is one [byte] of storage.  Whether plain [char] is a
      signed or an unsigned type is implementation-defined in C++, so the
      embedding takes it as the boolean [plain_char_signed].
    - A [uint32_t] is a [Z] in [0, 2^32); the wrap-around of unsigned
      arithmetic is written out with [mod 2^32].
    - A [const char*] is the list of the bytes of the pointed-to object from
      the pointee on; [*str++] takes the head and moves to the tail.  A read
      past the end of the object is undefined behaviour: [None].
    - A [const char (&)[N]] is the list of its [N] elements.
    - A [size_t] that counts loop iterations or indexes an array is a [nat]
      (the counter of the source never wraps: it stays below [length]). *)

From Stdlib Require Import ZArith List Lia Bool.
From Stdlib Require Import Strings.Byte Strings.String.
Import ListNotations.

Local Open Scope Z_scope.

(** ** Integer types of the source *)

Module Cxx.

(** A [char] is one byte of storage. *)
Definition char : Type := Byte.byte.

(** [uint32_t] arithmetic is arithmetic modulo [2^32]. *)
Definition uint32_modulus : Z := 2 ^ 32.

Definition to_uint32 (z : Z) : Z := z mod uint32_modulus.

Definition is_uint32 (z : Z) : Prop := 0 <= z < uint32_modulus.

(** The bit pattern of a [char], read as an unsigned number. *)
Definition byte_value (c : char) : Z := Z.of_N (Byte.to_N c).

(** The value of a [char] object: two's complement where plain [char] is
    signed, the bit pattern itself where it is unsigned. *)
Definition char_value (plain_char_signed : bool) (c : char) : Z :=
  let u := byte_value c in
  if plain_char_signed then (if u <? 128 then u else u - 256) else u.

(** [static_cast<uint32_t>(c)] for [c] of type [char]: the value of [c]
    reduced modulo [2^32]. *)
Definition static_cast_uint32 (plain_char_signed : bool) (c : char) : Z :=
  to_uint32 (char_value plain_char_signed c).

(** [uint32_t ^ uint32_t] and [uint32_t * uint32_t]. *)
Definition xor32 (a b : Z) : Z := Z.lxor a b.
Definition mul32 (a b : Z) : Z := to_uint32 (a * b).

(** [strlen]: the number of chars before the first zero char; undefined
    when the object holds no zero char from the pointee on. *)
Fixpoint strlen (str : list char) : option nat :=
  match str with
  | [] => None
  | c :: rest =>
      if Byte.eqb c x00 then Some O
      else match strlen rest with
           | Some n => Some (S n)
           | None => None
           end
  end.

End Cxx.

Import Cxx.

(** ** The run-time functions *)

Section StringHash.

Variable plain_char_signed : bool.

Definition FNV_prime : Z := 16777619.
Definition FNV_offset : Z := 2166136261.

(** [uint32_t GenerateFNV1aHash(const char* str, size_t length, uint32_t hash)]:
    one loop iteration per remaining unit of [length]. *)
Fixpoint GenerateFNV1aHash_seed (str : list char) (length : nat) (hash : Z)
  {struct length} : option Z :=
  match length with
  | O => Some hash
  | S remaining =>
      match str with
      | [] => None
      | c :: str' =>
          let value := static_cast_uint32 plain_char_signed c in
          let hash := xor32 hash value in
          let hash := mul32 hash FNV_prime in
          GenerateFNV1aHash_seed str' remaining hash
      end
  end.

(** [uint32_t GenerateFNV1aHash(const char* str, size_t length)] *)
Definition GenerateFNV1aHash_len (str : list char) (length : nat) : option Z :=
  GenerateFNV1aHash_seed str length FNV_offset.

(** [uint32_t GenerateFNV1aHash(const char* str)] *)
Definition GenerateFNV1aHash (str : list char) : option Z :=
  match strlen str with
  | Some length => GenerateFNV1aHash_len str length
  | None => None
  end.

(** ** The compile-time recursion *)

(** [Hash<I>::GenerateHash(const char (&str)[N])]; [Hash<0u>] is the
    specialisation that ends the recursion.  Reading [str[I - 1]] outside
    the array has no value. *)
Fixpoint Hash_GenerateHash (I : nat) (str : list char) : option Z :=
  match I with
  | O => Some FNV_offset
  | S I' =>
      match Hash_GenerateHash I' str, nth_error str I' with
      | Some h, Some c =>
          Some (mul32 (xor32 h (static_cast_uint32 plain_char_signed c)) FNV_prime)
      | _, _ => None
      end
  end.

(** ** Dispatch on the type of the argument *)

(** [HashHelper<const char*>::Generate] *)
Definition HashHelper_ptr_Generate (str : list char) : option Z :=
  GenerateFNV1aHash str.

(** [HashHelper<char [N]>::Generate]: [N] is the number of elements of the
    array; there is no array type with [N = 0]. *)
Definition HashHelper_array_Generate (str : list char) : option Z :=
  match List.length str with
  | O => None
  | S N_minus_1 => Hash_GenerateHash N_minus_1 str
  end.

(** The two argument types for which [HashHelper<T>] has a [Generate]. *)
Inductive Text : Type :=
| CharArray (str : list char)    (* const char (&)[N] *)
| CharPointer (str : list char). (* const char*       *)

(** [template<typename T> constexpr uint32_t GenerateHash(const T& str)] *)
Definition GenerateHash (str : Text) : option Z :=
  match str with
  | CharArray a => HashHelper_array_Generate a
  | CharPointer p => HashHelper_ptr_Generate p
  end.

(** ** The wrapper class *)

Record StringHash : Type := mkStringHash { m_hash : Z }.

(** [StringHash::StringHash(const T& str) : m_hash(GenerateHash(str))] *)
Definition StringHash_ctor (str : Text) : option StringHash :=
  match GenerateHash str with
  | Some h => Some (mkStringHash h)
  | None => None
  end.

(** [uint32_t StringHash::Get(void)]: a non-const member function, so it
    is given the object and returns the result and the object after the
    call. *)
Definition Get (this : StringHash) : Z * StringHash := (m_hash this, this).

End StringHash.

(** ** The algorithm as the specification words it *)

(** One folding step: the accumulator [a] becomes
    [((a XOR b) * 16777619) mod 2^32]. *)
Definition fnv1a_step (a b : Z) : Z := (Z.lxor a b * 16777619) mod 2 ^ 32.

(** The left fold of [fnv1a_step] over the operands, starting from [h]. *)
Definition fnv1a_fold (h : Z) (operands : list Z) : Z :=
  fold_left fnv1a_step operands h.

(** The operands of a run of chars: each char converted as the source does. *)
Definition operands (plain_char_signed : bool) (cs : list char) : list Z :=
  map (static_cast_uint32 plain_char_signed) cs.

(** The chars of a string literal, without the terminator. *)
Definition chars (s : string) : list char := list_byte_of_string s.

(** The array a string literal denotes: its chars and the terminator. *)
Definition literal (s : string) : list char := chars s ++ [x00].

(** The chars a C-string function sees: those strictly before the first
    zero char of the storage. *)
Fixpoint before_first_zero (str : list char) : list char :=
  match str with
  | [] => []
  | c :: rest => if Byte.eqb c x00 then [] else c :: before_first_zero rest
  end.

(** The inverse of the FNV prime modulo [2^32] (the prime is odd). *)
Definition FNV_prime_inverse : Z := 899433627.

(** The arguments [GenerateHash] is defined on: an array has at least one
    element, and the storage behind a pointer holds a zero char. *)
Definition well_formed (t : Text) : Prop :=
  match t with
  | CharArray a => a <> []
  | CharPointer p => In x00 p
  end.

(** A char of the 7-bit range, whose value does not depend on the signedness
    of plain [char]. *)
Definition seven_bit (c : char) : Prop := byte_value c < 128.

(** The value the code XORs into the hash for a char, told from the char's
    unsigned byte value: the byte value itself, except that where plain
    [char] is signed a byte value of 128 or more arrives sign-extended, as
    the byte value plus 0xFFFFFF00. *)
Definition xor_operand (plain_char_signed : bool) (c : char) : Z :=
  if plain_char_signed && (128 <=? byte_value c)
  then byte_value c + 4294967040
  else byte_value c.

(** * Properties *)

(** ** Arithmetic of the folding step *)

Lemma step_is_fnv1a_step (h v : Z) : mul32 (xor32 h v) FNV_prime = fnv1a_step h v.
Proof. reflexivity. Qed.

Lemma modulus_pos : 0 < uint32_modulus.
Proof. reflexivity. Qed.

Lemma to_uint32_range (z : Z) : is_uint32 (to_uint32 z).
Proof. apply Z.mod_pos_bound, modulus_pos. Qed.

Lemma FNV_offset_uint32 : is_uint32 FNV_offset.
Proof. unfold is_uint32, uint32_modulus, FNV_offset. lia. Qed.

Lemma fnv1a_step_range (a b : Z) : is_uint32 (fnv1a_step a b).
Proof. apply Z.mod_pos_bound. reflexivity. Qed.

Lemma byte_value_range (c : char) : 0 <= byte_value c < 256.
Proof.
  unfold byte_value. pose proof (Byte.to_N_bounded c). lia.
Qed.

Lemma static_cast_uint32_range (sgn : bool) (c : char) :
  is_uint32 (static_cast_uint32 sgn c).
Proof. apply to_uint32_range. Qed.

(** ** The loop of the dynamic path is a left fold *)

Section Dynamic.

Variable sgn : bool.

Lemma seed_cons (c : char) (str : list char) (n : nat) (h : Z) :
  GenerateFNV1aHash_seed sgn (c :: str) (S n) h
  = GenerateFNV1aHash_seed sgn str n (fnv1a_step h (static_cast_uint32 sgn c)).
Proof. reflexivity. Qed.

Lemma seed_fold (L : nat) : forall (str : list char) (h : Z),
  (L <= List.length str)%nat ->
  GenerateFNV1aHash_seed sgn str L h
  = Some (fnv1a_fold h (operands sgn (firstn L str))).
Proof.
  induction L as [|L IH]; intros str h Hlen.
  - reflexivity.
  - destruct str as [|c str]; [simpl in Hlen; lia|].
    rewrite seed_cons, IH by (simpl in Hlen; lia).
    reflexivity.
Qed.

Lemma seed_whole (str : list char) (h : Z) :
  GenerateFNV1aHash_seed sgn str (List.length str) h
  = Some (fnv1a_fold h (operands sgn str)).
Proof. rewrite seed_fold, firstn_all by lia. reflexivity. Qed.

Lemma seed_out_of_bounds (L : nat) : forall (str : list char) (h : Z),
  (List.length str < L)%nat -> GenerateFNV1aHash_seed sgn str L h = None.
Proof.
  induction L as [|L IH]; intros str h Hlen; [lia|].
  destruct str as [|c str]; [reflexivity|].
  rewrite seed_cons. apply IH. simpl in Hlen. lia.
Qed.

Lemma fold_app (h : Z) (xs ys : list Z) :
  fnv1a_fold h (xs ++ ys) = fnv1a_fold (fnv1a_fold h xs) ys.
Proof. apply fold_left_app. Qed.

Lemma operands_app (xs ys : list char) :
  operands sgn (xs ++ ys) = operands sgn xs ++ operands sgn ys.
Proof. apply map_app. Qed.

End Dynamic.

(** ** [strlen] and the chars before the first zero *)

Lemma strlen_before_first_zero (str : list char) :
  In x00 str -> strlen str = Some (List.length (before_first_zero str)).
Proof.
  induction str as [|c str IH]; intros Hin; [destruct Hin|].
  simpl. destruct (Byte.eqb c x00) eqn:E; [reflexivity|].
  destruct Hin as [Hc|Hin].
  - subst c. discriminate E.
  - rewrite (IH Hin). reflexivity.
Qed.

Lemma strlen_unterminated (str : list char) : ~ In x00 str -> strlen str = None.
Proof.
  induction str as [|c str IH]; intros Hnin; [reflexivity|].
  simpl. destruct (Byte.eqb c x00) eqn:E.
  - exfalso. apply Hnin. left. symmetry. now apply Byte.byte_dec_bl.
  - rewrite IH; [reflexivity|]. intros H. apply Hnin. now right.
Qed.

Lemma before_first_zero_split (str : list char) :
  In x00 str ->
  exists rest, str = before_first_zero str ++ x00 :: rest.
Proof.
  induction str as [|c str IH]; intros Hin; [destruct Hin|].
  simpl. destruct (Byte.eqb c x00) eqn:E.
  - apply Byte.byte_dec_bl in E. subst c. now exists str.
  - destruct Hin as [Hc|Hin]; [subst c; discriminate E|].
    destruct (IH Hin) as [rest Hrest]. exists rest.
    simpl. now rewrite <- Hrest.
Qed.

Lemma before_first_zero_nonzero (str : list char) :
  ~ In x00 (before_first_zero str).
Proof.
  induction str as [|c str IH]; [intros []|].
  simpl. destruct (Byte.eqb c x00) eqn:E; [intros []|].
  intros [Hc|Hin]; [subst c; discriminate E | now apply IH].
Qed.

Lemma before_first_zero_firstn (str : list char) :
  before_first_zero str = firstn (List.length (before_first_zero str)) str.
Proof.
  induction str as [|c str IH]; [reflexivity|].
  simpl. destruct (Byte.eqb c x00); [reflexivity|].
  simpl. now rewrite <- IH.
Qed.

Lemma before_first_zero_length (str : list char) :
  (List.length (before_first_zero str) <= List.length str)%nat.
Proof.
  induction str as [|c str IH]; [simpl; lia|].
  simpl. destruct (Byte.eqb c x00); simpl; lia.
Qed.

Lemma before_first_zero_app (content rest : list char) :
  ~ In x00 content ->
  before_first_zero (content ++ x00 :: rest) = content.
Proof.
  induction content as [|c content IH]; intros Hnin; [reflexivity|].
  simpl. destruct (Byte.eqb c x00) eqn:E.
  - exfalso. apply Hnin. left. symmetry. now apply Byte.byte_dec_bl.
  - rewrite IH; [reflexivity|]. intros H. apply Hnin. now right.
Qed.

(** The pointer overload folds the chars before the first zero. *)
Lemma pointer_fold (sgn : bool) (str : list char) :
  In x00 str ->
  GenerateFNV1aHash sgn str
  = Some (fnv1a_fold FNV_offset (operands sgn (before_first_zero str))).
Proof.
  intros Hin. unfold GenerateFNV1aHash, GenerateFNV1aHash_len.
  rewrite (strlen_before_first_zero str Hin).
  rewrite seed_fold by apply before_first_zero_length.
  now rewrite <- before_first_zero_firstn.
Qed.

(** ** The recursion of the static path is the same left fold *)

Lemma firstn_snoc {A : Type} (I : nat) : forall (l : list A) (x : A),
  nth_error l I = Some x -> firstn (S I) l = firstn I l ++ [x].
Proof.
  induction I as [|I IH]; intros [|y l] x Hx; try discriminate.
  - injection Hx as ->. reflexivity.
  - change (y :: firstn (S I) l = y :: (firstn I l ++ [x])).
    f_equal. apply IH. exact Hx.
Qed.

Lemma nth_error_in_bounds {A : Type} (l : list A) (I : nat) :
  (I < List.length l)%nat -> exists x, nth_error l I = Some x.
Proof.
  intros H. destruct (nth_error l I) as [x|] eqn:E; [now exists x|].
  apply nth_error_None in E. lia.
Qed.

Section Static.

Variable sgn : bool.

Lemma Hash_step (I : nat) (str : list char) (h : Z) (c : char) :
  Hash_GenerateHash sgn I str = Some h ->
  nth_error str I = Some c ->
  Hash_GenerateHash sgn (S I) str
  = Some (fnv1a_step h (static_cast_uint32 sgn c)).
Proof. intros Hh Hc. cbn [Hash_GenerateHash]. rewrite Hh, Hc. reflexivity. Qed.

Lemma Hash_fold (I : nat) : forall (str : list char),
  (I <= List.length str)%nat ->
  Hash_GenerateHash sgn I str
  = Some (fnv1a_fold FNV_offset (operands sgn (firstn I str))).
Proof.
  induction I as [|I IH]; intros str Hlen; [reflexivity|].
  destruct (nth_error_in_bounds str I) as [c Hc]; [lia|].
  rewrite (Hash_step I str _ c (IH str ltac:(lia)) Hc).
  rewrite (firstn_snoc I str c Hc), operands_app, fold_app.
  reflexivity.
Qed.

Lemma Hash_out_of_bounds (I : nat) : forall (str : list char),
  (List.length str < I)%nat -> Hash_GenerateHash sgn I str = None.
Proof.
  induction I as [|I IH]; intros str Hlen; [lia|].
  cbn [Hash_GenerateHash].
  destruct (Hash_GenerateHash sgn I str); [|reflexivity].
  assert (E : nth_error str I = None) by (apply nth_error_None; lia).
  now rewrite E.
Qed.

Lemma array_entry (str : list char) :
  str <> [] ->
  HashHelper_array_Generate sgn str
  = Hash_GenerateHash sgn (List.length str - 1) str.
Proof.
  intros Hne. unfold HashHelper_array_Generate.
  destruct str as [|c str]; [contradiction|].
  cbn [List.length]. now rewrite Nat.sub_1_r.
Qed.

Lemma array_fold (str : list char) :
  str <> [] ->
  HashHelper_array_Generate sgn str
  = Some (fnv1a_fold FNV_offset (operands sgn (removelast str))).
Proof.
  intros Hne. rewrite (array_entry str Hne), Hash_fold by lia.
  rewrite removelast_firstn_len. now rewrite Nat.sub_1_r.
Qed.

Lemma array_fold_content (content : list char) (last : char) :
  HashHelper_array_Generate sgn (content ++ [last])
  = Some (fnv1a_fold FNV_offset (operands sgn content)).
Proof.
  rewrite array_fold by (now destruct content).
  now rewrite removelast_last.
Qed.

End Static.

(** ** The folding step is a bijection on [uint32_t] *)

Lemma FNV_prime_inverse_ok : (16777619 * FNV_prime_inverse) mod 2 ^ 32 = 1.
Proof. reflexivity. Qed.

Lemma mul_prime_inj (a b : Z) :
  is_uint32 a -> is_uint32 b ->
  (a * 16777619) mod 2 ^ 32 = (b * 16777619) mod 2 ^ 32 -> a = b.
Proof.
  intros Ha Hb E.
  assert (cancel : forall x, is_uint32 x ->
            (((x * 16777619) mod 2 ^ 32) * FNV_prime_inverse) mod 2 ^ 32 = x).
  { intros x Hx. rewrite Z.mul_mod_idemp_l by discriminate.
    rewrite <- Z.mul_assoc, <- Z.mul_mod_idemp_r by discriminate.
    rewrite FNV_prime_inverse_ok, Z.mul_1_r.
    apply Z.mod_small. exact Hx. }
  rewrite <- (cancel a Ha), <- (cancel b Hb), E. reflexivity.
Qed.

Lemma lxor_cancel_r (a b v : Z) : Z.lxor a v = Z.lxor b v -> a = b.
Proof.
  intros E. apply (f_equal (fun x => Z.lxor x v)) in E.
  now rewrite !Z.lxor_assoc, Z.lxor_nilpotent, !Z.lxor_0_r in E.
Qed.

Lemma lxor_uint32 (a b : Z) : is_uint32 a -> is_uint32 b -> is_uint32 (Z.lxor a b).
Proof.
  unfold is_uint32, uint32_modulus. intros [Ha0 Ha] [Hb0 Hb].
  assert (H0 : 0 <= Z.lxor a b) by (apply Z.lxor_nonneg; tauto).
  split; [exact H0|].
  destruct (Z.eq_dec (Z.lxor a b) 0) as [->|Hnz]; [reflexivity|].
  apply Z.log2_lt_pow2; [lia|].
  pose proof (Z.log2_lxor a b Ha0 Hb0) as Hlog.
  assert (La : Z.log2 a < 32).
  { destruct (Z.eq_dec a 0) as [->|]; [reflexivity|]. apply Z.log2_lt_pow2; lia. }
  assert (Lb : Z.log2 b < 32).
  { destruct (Z.eq_dec b 0) as [->|]; [reflexivity|]. apply Z.log2_lt_pow2; lia. }
  lia.
Qed.

Lemma fnv1a_step_inj (a b v : Z) :
  is_uint32 a -> is_uint32 b -> is_uint32 v ->
  fnv1a_step a v = fnv1a_step b v -> a = b.
Proof.
  intros Ha Hb Hv E. unfold fnv1a_step in E.
  apply mul_prime_inj in E; try (now apply lxor_uint32).
  now apply lxor_cancel_r in E.
Qed.

Lemma fnv1a_fold_inj (vs : list Z) : forall a b : Z,
  Forall is_uint32 vs -> is_uint32 a -> is_uint32 b ->
  fnv1a_fold a vs = fnv1a_fold b vs -> a = b.
Proof.
  induction vs as [|v vs IH]; intros a b Hvs Ha Hb E; [exact E|].
  inversion Hvs as [|? ? Hv Hvs']; subst.
  apply (fnv1a_step_inj a b v Ha Hb Hv).
  apply IH; auto using fnv1a_step_range.
Qed.

Lemma operands_uint32 (sgn : bool) (cs : list char) :
  Forall is_uint32 (operands sgn cs).
Proof.
  unfold operands. apply Forall_map, Forall_forall.
  intros c _. apply static_cast_uint32_range.
Qed.

Lemma fnv1a_fold_range (vs : list Z) : forall h,
  is_uint32 h -> is_uint32 (fnv1a_fold h vs).
Proof.
  induction vs as [|v vs IH]; intros h Hh; [exact Hh|].
  apply IH, fnv1a_step_range.
Qed.

(** ** The conversion of a [char] to [uint32_t] *)

Lemma static_cast_unsigned_char (c : char) :
  static_cast_uint32 false c = byte_value c.
Proof.
  unfold static_cast_uint32, char_value, to_uint32, uint32_modulus.
  pose proof (byte_value_range c). apply Z.mod_small. lia.
Qed.

Lemma static_cast_low (sgn : bool) (c : char) :
  byte_value c < 128 -> static_cast_uint32 sgn c = byte_value c.
Proof.
  intros Hc. unfold static_cast_uint32, char_value, to_uint32, uint32_modulus.
  pose proof (byte_value_range c).
  destruct sgn; [apply Z.ltb_lt in Hc as ->|]; apply Z.mod_small; lia.
Qed.

Lemma static_cast_signed_high (c : char) :
  128 <= byte_value c ->
  static_cast_uint32 true c = byte_value c + 4294967040.
Proof.
  intros Hc. unfold static_cast_uint32, char_value, to_uint32, uint32_modulus.
  pose proof (byte_value_range c).
  apply Z.ltb_ge in Hc as ->.
  symmetry. apply (Z.mod_unique_pos _ _ (-1)); lia.
Qed.

Lemma static_cast_uint32_operand (sgn : bool) (c : char) :
  static_cast_uint32 sgn c = xor_operand sgn c.
Proof.
  unfold xor_operand. destruct sgn; cbn [andb].
  - destruct (128 <=? byte_value c) eqn:E.
    + apply Z.leb_le in E. now apply static_cast_signed_high.
    + apply Z.leb_gt in E. now apply static_cast_low.
  - apply static_cast_unsigned_char.
Qed.

Lemma operands_xor_operand (sgn : bool) (cs : list char) :
  operands sgn cs = map (xor_operand sgn) cs.
Proof. apply map_ext, static_cast_uint32_operand. Qed.

(** ** The wrapper *)

Lemma Get_reads_m_hash (sgn : bool) (t : Text) (w : StringHash) :
  StringHash_ctor sgn t = Some w ->
  GenerateHash sgn t = Some (fst (Get w)) /\ snd (Get w) = w.
Proof.
  unfold StringHash_ctor. intros H.
  destruct (GenerateHash sgn t) as [h|]; [|discriminate].
  injection H as <-. split; reflexivity.
Qed.

(** * The claims *)

(** C1, as amended: for every char sequence [S] that holds no zero char,
    the static path [Hash<N-1>::GenerateHash] on the array [S] followed by
    the terminator ([N = length S + 1]) and the dynamic path
    [GenerateFNV1aHash] on a pointer to the same chars followed by the
    terminator return the same 32-bit value. *)
Theorem static_dynamic_agree (sgn : bool) (S rest : list char) :
  ~ In x00 S ->
  exists v : Z,
    is_uint32 v /\
    Hash_GenerateHash sgn (List.length S) (S ++ [x00]) = Some v /\
    HashHelper_array_Generate sgn (S ++ [x00]) = Some v /\
    GenerateFNV1aHash sgn (S ++ x00 :: rest) = Some v.
Proof.
  intros Hnz. exists (fnv1a_fold FNV_offset (operands sgn S)).
  split; [apply fnv1a_fold_range, FNV_offset_uint32|].
  split; [|split].
  - rewrite Hash_fold by (rewrite length_app; lia).
    now rewrite firstn_app, Nat.sub_diag, firstn_all, firstn_O, app_nil_r.
  - apply array_fold_content.
  - rewrite pointer_fold by (apply in_or_app; right; now left).
    now rewrite before_first_zero_app.
Qed.

Lemma static_dynamic_agree_witness :
  ~ In x00 (chars "abc") /\
  exists v : Z,
    is_uint32 v /\
    Hash_GenerateHash true 3 (chars "abc" ++ [x00]) = Some v /\
    HashHelper_array_Generate true (chars "abc" ++ [x00]) = Some v /\
    GenerateFNV1aHash true (chars "abc" ++ x00 :: []) = Some v.
Proof.
  assert (H : ~ In x00 (chars "abc")) by (simpl; intuition discriminate).
  split; [exact H|].
  exact (static_dynamic_agree true (chars "abc") [] H).
Defined.

(** C1 as stated fails on a char sequence with an interior zero: on the
    array of the literal ["a\0b"] the static path folds [a], [0], [b] and
    the pointer path stops before the first zero. *)
Lemma static_dynamic_differ_on_interior_zero :
  (Hash_GenerateHash true 3 ([x61; x00; x62] ++ [x00]) = Some 284404690 /\
   GenerateFNV1aHash true ([x61; x00; x62] ++ [x00]) = Some 3826002220) /\
  (Hash_GenerateHash false 3 ([x61; x00; x62] ++ [x00]) = Some 284404690 /\
   GenerateFNV1aHash false ([x61; x00; x62] ++ [x00]) = Some 3826002220) /\
  ~ (forall (sgn : bool) (S : list char),
       Hash_GenerateHash sgn (List.length S) (S ++ [x00])
       = GenerateFNV1aHash sgn (S ++ [x00])).
Proof.
  split; [split; vm_compute; reflexivity|].
  split; [split; vm_compute; reflexivity|].
  intros H. specialize (H true [x61; x00; x62]).
  vm_compute in H. discriminate H.
Qed.

(** C2 fails where plain [char] is a signed type.  For every storage, its
    first [L] chars [first] and seed [h], [GenerateFNV1aHash(str, L, h)] is
    the left fold over those chars in order, from accumulator [h], of the
    step [a |-> ((a XOR operand) * 16777619) mod 2^32], and for [L = 0] it
    returns [h]; but the operand is the byte only where plain [char] is
    unsigned or the byte is below 128: where plain [char] is signed a byte
    of 128 or more is XORed as the byte plus 0xFFFFFF00.  On the one byte
    0x80 from the default seed the code returns 83079839 there, and the
    fold over the byte that the claim states is 2232128415. *)
Theorem seed_loop_folds_converted_chars
  (sgn : bool) (first rest : list char) (h : Z) :
  GenerateFNV1aHash_seed sgn (first ++ rest) (List.length first) h
  = Some (fold_left (fun a b => (Z.lxor a b * 16777619) mod 2 ^ 32)
            (map (xor_operand sgn) first) h)
  /\ GenerateFNV1aHash_seed sgn rest 0 h = Some h
  /\ GenerateFNV1aHash_seed true [x80] 1 2166136261 = Some 83079839
  /\ fold_left (fun a b => (Z.lxor a b * 16777619) mod 2 ^ 32)
       (map byte_value (firstn 1 [x80])) 2166136261 = 2232128415.
Proof.
  split; [|repeat split; vm_compute; reflexivity].
  rewrite seed_fold by (rewrite length_app; lia).
  rewrite firstn_app, Nat.sub_diag, firstn_all, firstn_O, app_nil_r.
  rewrite operands_xor_operand. reflexivity.
Qed.

(** C3 fails where plain [char] is a signed type.  On a char array the
    static path follows the recursion of the specification: the hash of the
    empty prefix is 2166136261, the hash of the prefix ending at index [I]
    is (hash of the prefix before it XOR operand) * 16777619 modulo 2^32,
    and the entry point for [char[N]] enters at depth [N - 1], so it returns
    the fold over the [N - 1] content chars; but the operand is the char at
    index [I] only where plain [char] is unsigned or the char is below 128:
    where plain [char] is signed a byte of 128 or more is XORed as the byte
    plus 0xFFFFFF00.  On the array [{0x80, 0}] [Hash<1>] returns 83079839
    there, and the step over the byte that the claim states is
    2232128415. *)
Theorem static_path_folds_converted_chars
  (sgn : bool) (pre rest content : list char) (c last : char) :
  Hash_GenerateHash sgn 0 content = Some 2166136261
  /\ (exists h : Z,
        h = fold_left (fun a b => (Z.lxor a b * 16777619) mod 2 ^ 32)
              (map (xor_operand sgn) pre) 2166136261 /\
        Hash_GenerateHash sgn (List.length pre) (pre ++ c :: rest) = Some h /\
        Hash_GenerateHash sgn (S (List.length pre)) (pre ++ c :: rest)
        = Some ((Z.lxor h (xor_operand sgn c) * 16777619) mod 2 ^ 32))
  /\ HashHelper_array_Generate sgn (content ++ [last])
     = Hash_GenerateHash sgn (List.length content) (content ++ [last])
  /\ HashHelper_array_Generate sgn (content ++ [last])
     = Some (fold_left (fun a b => (Z.lxor a b * 16777619) mod 2 ^ 32)
               (map (xor_operand sgn) content) 2166136261)
  /\ Hash_GenerateHash true 1 [x80; x00] = Some 83079839
  /\ HashHelper_array_Generate true [x80; x00] = Some 83079839
  /\ (Z.lxor 2166136261 (byte_value x80) * 16777619) mod 2 ^ 32 = 2232128415.
Proof.
  split; [reflexivity|].
  split; [|split; [|split; [|repeat split; vm_compute; reflexivity]]].
  - assert (Hh : Hash_GenerateHash sgn (List.length pre) (pre ++ c :: rest)
                 = Some (fnv1a_fold FNV_offset (operands sgn pre))).
    { rewrite Hash_fold by (rewrite length_app; lia).
      now rewrite firstn_app, Nat.sub_diag, firstn_all, firstn_O, app_nil_r. }
    assert (Hc : nth_error (pre ++ c :: rest) (List.length pre) = Some c).
    { rewrite nth_error_app2 by lia. now rewrite Nat.sub_diag. }
    exists (fnv1a_fold FNV_offset (operands sgn pre)).
    split; [now rewrite operands_xor_operand|]. split; [exact Hh|].
    rewrite (Hash_step sgn _ _ _ c Hh Hc), static_cast_uint32_operand.
    reflexivity.
  - rewrite array_entry by (now destruct content).
    rewrite length_app. cbn [List.length]. f_equal. lia.
  - rewrite array_fold_content, operands_xor_operand. reflexivity.
Qed.

(** C4: for every storage and length the two-argument overload is the
    three-argument overload with seed 2166136261; on a pointer to storage
    that holds a zero char the one-argument overload is the two-argument
    overload with the length that [strlen] scans, the number of chars before
    the first zero char. *)
Theorem overloads_agree (sgn : bool) (str : list char) (L : nat) :
  GenerateFNV1aHash_len sgn str L = GenerateFNV1aHash_seed sgn str L 2166136261
  /\ (In x00 str ->
      strlen str = Some (List.length (before_first_zero str))
      /\ GenerateFNV1aHash sgn str
         = GenerateFNV1aHash_len sgn str (List.length (before_first_zero str))
      /\ (exists rest, str = before_first_zero str ++ x00 :: rest)
      /\ ~ In x00 (before_first_zero str)).
Proof.
  split; [reflexivity|]. intros Hin.
  pose proof (strlen_before_first_zero str Hin) as Hlen.
  split; [exact Hlen|]. split; [|split].
  - unfold GenerateFNV1aHash. now rewrite Hlen.
  - now apply before_first_zero_split.
  - apply before_first_zero_nonzero.
Qed.

Lemma overloads_agree_witness :
  In x00 (literal "abc") /\
  (GenerateFNV1aHash_len true (literal "abc") 2
   = GenerateFNV1aHash_seed true (literal "abc") 2 2166136261
   /\ strlen (literal "abc") = Some (List.length (before_first_zero (literal "abc")))
   /\ GenerateFNV1aHash true (literal "abc")
      = GenerateFNV1aHash_len true (literal "abc")
          (List.length (before_first_zero (literal "abc")))
   /\ (exists rest, literal "abc" = before_first_zero (literal "abc") ++ x00 :: rest)
   /\ ~ In x00 (before_first_zero (literal "abc"))).
Proof.
  assert (H : In x00 (literal "abc")) by (simpl; tauto).
  destruct (overloads_agree true (literal "abc") 2) as [Hseed Hscan].
  exact (conj H (conj Hseed (Hscan H))).
Defined.

(** C5 fails where plain [char] is a signed type: the char with bit pattern
    0x80 has the value -128, its conversion to [uint32_t] is 4294967168
    (0xFFFFFF80), not its unsigned byte value 128, and both paths return
    83079839 on the one-char string, where folding the byte value 128 gives
    2232128415. *)
Theorem signed_char_is_sign_extended :
  byte_value x80 = 128
  /\ static_cast_uint32 true x80 = 4294967168
  /\ GenerateFNV1aHash true [x80; x00] = Some 83079839
  /\ HashHelper_array_Generate true [x80; x00] = Some 83079839
  /\ fnv1a_fold FNV_offset [byte_value x80] = 2232128415.
Proof. repeat split; vm_compute; reflexivity. Qed.

(** C6, as amended: for chars that hold no zero char, a [StringHash]
    constructed from the array (the chars and the terminator) and a
    [StringHash] constructed from a pointer to the same chars followed by the
    terminator return the same value from [Get()]; [Get()] returns the hash
    [GenerateHash] computed at construction and leaves the object as it
    was. *)
Theorem wrapper_literal_dynamic_agree (sgn : bool) (S rest : list char) :
  ~ In x00 S ->
  exists w1 w2 : StringHash,
    StringHash_ctor sgn (CharArray (S ++ [x00])) = Some w1 /\
    StringHash_ctor sgn (CharPointer (S ++ x00 :: rest)) = Some w2 /\
    fst (Get w1) = fst (Get w2) /\
    GenerateHash sgn (CharArray (S ++ [x00])) = Some (fst (Get w1)) /\
    GenerateHash sgn (CharPointer (S ++ x00 :: rest)) = Some (fst (Get w2)) /\
    snd (Get w1) = w1 /\ snd (Get w2) = w2.
Proof.
  intros Hnz.
  set (v := fnv1a_fold FNV_offset (operands sgn S)).
  assert (Ha : GenerateHash sgn (CharArray (S ++ [x00])) = Some v)
    by apply array_fold_content.
  assert (Hp : GenerateHash sgn (CharPointer (S ++ x00 :: rest)) = Some v).
  { cbn [GenerateHash]. unfold HashHelper_ptr_Generate.
    rewrite pointer_fold by (apply in_or_app; right; now left).
    now rewrite before_first_zero_app. }
  exists (mkStringHash v), (mkStringHash v).
  unfold StringHash_ctor. rewrite Ha, Hp. repeat split; reflexivity.
Qed.

Lemma wrapper_literal_dynamic_agree_witness :
  ~ In x00 (chars "abc") /\
  exists w1 w2 : StringHash,
    StringHash_ctor true (CharArray (chars "abc" ++ [x00])) = Some w1 /\
    StringHash_ctor true (CharPointer (chars "abc" ++ x00 :: [])) = Some w2 /\
    fst (Get w1) = fst (Get w2) /\
    GenerateHash true (CharArray (chars "abc" ++ [x00])) = Some (fst (Get w1)) /\
    GenerateHash true (CharPointer (chars "abc" ++ x00 :: [])) = Some (fst (Get w2)) /\
    snd (Get w1) = w1 /\ snd (Get w2) = w2.
Proof.
  assert (H : ~ In x00 (chars "abc")) by (simpl; intuition discriminate).
  split; [exact H|].
  exact (wrapper_literal_dynamic_agree true (chars "abc") [] H).
Defined.

(** C6 as stated fails on chars with an interior zero: the wrapper built
    from the array of the literal ["a\0b"] and the wrapper built from a
    pointer to the same chars report different values. *)
Lemma wrapper_differs_on_interior_zero :
  StringHash_ctor true (CharArray ([x61; x00; x62] ++ [x00]))
  = Some (mkStringHash 284404690)
  /\ StringHash_ctor true (CharPointer ([x61; x00; x62] ++ [x00]))
     = Some (mkStringHash 3826002220)
  /\ fst (Get (mkStringHash 284404690)) <> fst (Get (mkStringHash 3826002220))
  /\ ~ (forall (sgn : bool) (S : list char) (w1 w2 : StringHash),
          StringHash_ctor sgn (CharArray (S ++ [x00])) = Some w1 ->
          StringHash_ctor sgn (CharPointer (S ++ [x00])) = Some w2 ->
          fst (Get w1) = fst (Get w2)).
Proof.
  assert (Ha : StringHash_ctor true (CharArray ([x61; x00; x62] ++ [x00]))
               = Some (mkStringHash 284404690)) by (vm_compute; reflexivity).
  assert (Hp : StringHash_ctor true (CharPointer ([x61; x00; x62] ++ [x00]))
               = Some (mkStringHash 3826002220)) by (vm_compute; reflexivity).
  split; [exact Ha|]. split; [exact Hp|].
  split; [cbn; discriminate|].
  intros H. specialize (H true [x61; x00; x62] _ _ Ha Hp). discriminate H.
Qed.

(** C7: for every char sequence, every length [L] within it and every
    [uint32_t] seed [h] other than 2166136261, [GenerateFNV1aHash(str, L, h)]
    differs from [GenerateFNV1aHash(str, L)]; for a fixed input the hash is
    an injective function of the seed. *)
Theorem seed_changes_hash (sgn : bool) (str : list char) (L : nat) (h : Z) :
  (L <= List.length str)%nat ->
  is_uint32 h ->
  h <> 2166136261 ->
  (exists a b : Z,
     GenerateFNV1aHash_seed sgn str L h = Some a /\
     GenerateFNV1aHash_len sgn str L = Some b /\
     a <> b)
  /\ (forall h' : Z,
        is_uint32 h' ->
        GenerateFNV1aHash_seed sgn str L h' = GenerateFNV1aHash_seed sgn str L h ->
        h' = h).
Proof.
  intros HL Hh Hne.
  assert (inj : forall a b, is_uint32 a -> is_uint32 b ->
            GenerateFNV1aHash_seed sgn str L a = GenerateFNV1aHash_seed sgn str L b ->
            a = b).
  { intros a b Ha Hb E. rewrite !seed_fold in E by exact HL.
    injection E as E.
    exact (fnv1a_fold_inj _ a b (operands_uint32 sgn _) Ha Hb E). }
  split.
  - exists (fnv1a_fold h (operands sgn (firstn L str))),
           (fnv1a_fold FNV_offset (operands sgn (firstn L str))).
    split; [now apply seed_fold|]. split; [now apply seed_fold|].
    intros E. apply Hne.
    apply (inj h FNV_offset Hh FNV_offset_uint32).
    rewrite !seed_fold by exact HL. now rewrite E.
  - intros h' Hh' E. exact (inj h' h Hh' Hh E).
Qed.

Lemma seed_changes_hash_witness :
  (3 <= List.length (chars "abc"))%nat /\ is_uint32 7 /\ 7 <> 2166136261 /\
  ((exists a b : Z,
      GenerateFNV1aHash_seed true (chars "abc") 3 7 = Some a /\
      GenerateFNV1aHash_len true (chars "abc") 3 = Some b /\
      a <> b)
   /\ (forall h' : Z,
         is_uint32 h' ->
         GenerateFNV1aHash_seed true (chars "abc") 3 h'
         = GenerateFNV1aHash_seed true (chars "abc") 3 7 ->
         h' = 7)).
Proof.
  assert (H1 : (3 <= List.length (chars "abc"))%nat) by (simpl; lia).
  assert (H2 : is_uint32 7) by (unfold is_uint32, uint32_modulus; lia).
  assert (H3 : 7 <> 2166136261) by lia.
  split; [exact H1|]. split; [exact H2|]. split; [exact H3|].
  exact (seed_changes_hash true (chars "abc") 3 7 H1 H2 H3).
Defined.

(** C8: chained hashing is a homomorphism over concatenation: hashing
    [S1 ++ S2] over its whole length from seed [h] returns what hashing [S2]
    returns from the seed that hashing [S1] from [h] returns, and all three
    calls return a value. *)
Theorem chained_hashing (sgn : bool) (S1 S2 : list char) (h : Z) :
  exists h1 h2 : Z,
    GenerateFNV1aHash_seed sgn S1 (List.length S1) h = Some h1 /\
    GenerateFNV1aHash_seed sgn S2 (List.length S2) h1 = Some h2 /\
    GenerateFNV1aHash_seed sgn (S1 ++ S2) (List.length S1 + List.length S2) h
    = Some h2.
Proof.
  exists (fnv1a_fold h (operands sgn S1)).
  exists (fnv1a_fold (fnv1a_fold h (operands sgn S1)) (operands sgn S2)).
  split; [apply seed_whole|]. split; [apply seed_whole|].
  rewrite <- length_app, seed_whole, operands_app, fold_app. reflexivity.
Qed.

(** C9: the run-time hash of ["abc"] with the default seed is the constant
    obtained by applying the algorithm by hand, from 2166136261 through
    0x61, 0x62 and 0x63: 440920331 (0x1A47E90B). *)
Theorem abc_known_vector (sgn : bool) :
  GenerateFNV1aHash sgn (literal "abc")
  = Some
      ((Z.lxor
          ((Z.lxor
              ((Z.lxor 2166136261 0x61 * 16777619) mod 2 ^ 32)
              0x62 * 16777619) mod 2 ^ 32)
          0x63 * 16777619) mod 2 ^ 32)
  /\ GenerateFNV1aHash sgn (literal "abc") = Some 440920331
  /\ GenerateFNV1aHash_len sgn (chars "abc") 3 = Some 440920331.
Proof. destruct sgn; repeat split; vm_compute; reflexivity. Qed.

(** C10: the pointer overload hashes exactly the chars strictly before the
    first zero char of its storage; the array path folds all of the first
    [N - 1] elements of the array; so on an array with a zero char among its
    first [N - 1] elements the pointer path folds a strictly shorter prefix
    of the storage than the static path does. *)
Theorem pointer_and_array_prefixes (sgn : bool) (str arr : list char) :
  In x00 str ->
  arr <> [] ->
  ((exists rest, str = before_first_zero str ++ x00 :: rest)
   /\ ~ In x00 (before_first_zero str)
   /\ GenerateFNV1aHash sgn str
      = Some (fnv1a_fold FNV_offset (operands sgn (before_first_zero str))))
  /\ Hash_GenerateHash sgn (List.length arr - 1) arr
     = Some (fnv1a_fold FNV_offset (operands sgn (firstn (List.length arr - 1) arr)))
  /\ (In x00 (firstn (List.length arr - 1) arr) ->
      GenerateFNV1aHash sgn arr
      = Some (fnv1a_fold FNV_offset (operands sgn (before_first_zero arr)))
      /\ (exists rest,
            firstn (List.length arr - 1) arr = before_first_zero arr ++ x00 :: rest)
      /\ (List.length (before_first_zero arr) < List.length arr - 1)%nat).
Proof.
  intros Hin Hne. split; [|split].
  - split; [now apply before_first_zero_split|].
    split; [apply before_first_zero_nonzero | now apply pointer_fold].
  - apply Hash_fold. lia.
  - intros Hz.
    assert (Hza : In x00 arr).
    { rewrite <- (firstn_skipn (List.length arr - 1) arr).
      apply in_or_app. now left. }
    split; [now apply pointer_fold|].
    destruct (before_first_zero_split _ Hz) as [rest Hrest].
    assert (Hpre : before_first_zero (firstn (List.length arr - 1) arr)
                   = before_first_zero arr).
    { rewrite <- (firstn_skipn (List.length arr - 1) arr) at 3.
      rewrite Hrest at 2. rewrite <- app_assoc. cbn [app].
      symmetry. apply before_first_zero_app, before_first_zero_nonzero. }
    rewrite Hpre in Hrest.
    split; [now exists rest|].
    apply (f_equal (@List.length char)) in Hrest.
    rewrite length_app, length_firstn in Hrest. cbn [List.length] in Hrest.
    lia.
Qed.

Lemma pointer_and_array_prefixes_witness :
  (In x00 (literal "abc") /\ [x61; x00; x62; x00] <> [] /\
   In x00 (firstn (List.length [x61; x00; x62; x00] - 1) [x61; x00; x62; x00]))
  /\ GenerateFNV1aHash true (literal "abc")
     = Some (fnv1a_fold FNV_offset (operands true (chars "abc")))
  /\ Hash_GenerateHash true 3 [x61; x00; x62; x00]
     = Some (fnv1a_fold FNV_offset (operands true [x61; x00; x62]))
  /\ GenerateFNV1aHash true [x61; x00; x62; x00]
     = Some (fnv1a_fold FNV_offset (operands true [x61]))
  /\ (List.length (before_first_zero [x61; x00; x62; x00])
      < List.length [x61; x00; x62; x00] - 1)%nat.
Proof.
  assert (H1 : In x00 (literal "abc")) by (simpl; tauto).
  assert (H2 : [x61; x00; x62; x00] <> []) by discriminate.
  assert (H3 : In x00 (firstn (List.length [x61; x00; x62; x00] - 1)
                         [x61; x00; x62; x00])) by (simpl; tauto).
  split; [split; [exact H1 | split; [exact H2 | exact H3]]|].
  destruct (pointer_and_array_prefixes true (literal "abc")
              [x61; x00; x62; x00] H1 H2) as [[_ [_ Hptr]] [Harr Hzero]].
  destruct (Hzero H3) as [Hshort [_ Hlt]].
  split; [exact Hptr|]. split; [exact Harr|]. split; [exact Hshort | exact Hlt].
Defined.

(** * Further properties of the code *)

(** ** Operands and the folding step, continued *)

Lemma byte_value_inj (c1 c2 : char) : byte_value c1 = byte_value c2 -> c1 = c2.
Proof.
  unfold byte_value. intros E. apply N2Z.inj in E.
  pose proof (Byte.of_to_N c1) as E1. pose proof (Byte.of_to_N c2) as E2.
  rewrite E in E1. congruence.
Qed.

Lemma static_cast_uint32_inj (sgn : bool) (c1 c2 : char) :
  static_cast_uint32 sgn c1 = static_cast_uint32 sgn c2 -> c1 = c2.
Proof.
  intros E. apply byte_value_inj.
  pose proof (byte_value_range c1). pose proof (byte_value_range c2).
  destruct sgn; [|now rewrite !static_cast_unsigned_char in E].
  destruct (Z_lt_ge_dec (byte_value c1) 128) as [L1|G1];
    destruct (Z_lt_ge_dec (byte_value c2) 128) as [L2|G2];
    repeat match goal with
      | H : byte_value ?c < 128 |- _ =>
          rewrite (static_cast_low true c H) in E; clear H
      | H : byte_value ?c >= 128 |- _ =>
          rewrite (static_cast_signed_high c ltac:(lia)) in E; clear H
      end; lia.
Qed.

Lemma operands_unsigned (cs : list char) : operands false cs = map byte_value cs.
Proof. apply map_ext, static_cast_unsigned_char. Qed.

Lemma operands_seven_bit (sgn : bool) (cs : list char) :
  Forall seven_bit cs -> operands sgn cs = map byte_value cs.
Proof.
  intros H. apply map_ext_in. intros c Hc.
  apply static_cast_low. exact (proj1 (Forall_forall _ _) H c Hc).
Qed.

Lemma fnv1a_step_operand_inj (a v1 v2 : Z) :
  is_uint32 a -> is_uint32 v1 -> is_uint32 v2 ->
  fnv1a_step a v1 = fnv1a_step a v2 -> v1 = v2.
Proof.
  intros Ha H1 H2 E. unfold fnv1a_step in E.
  apply mul_prime_inj in E; try (now apply lxor_uint32).
  rewrite (Z.lxor_comm a v1), (Z.lxor_comm a v2) in E.
  now apply lxor_cancel_r in E.
Qed.

Lemma fold_differs_at_one (pre suf : list Z) (v1 v2 a : Z) :
  Forall is_uint32 suf -> is_uint32 a -> is_uint32 v1 -> is_uint32 v2 ->
  v1 <> v2 ->
  fnv1a_fold a (pre ++ v1 :: suf) <> fnv1a_fold a (pre ++ v2 :: suf).
Proof.
  intros Hsuf Ha H1 H2 Hne E. apply Hne.
  rewrite !fold_app in E.
  assert (Hacc : is_uint32 (fnv1a_fold a pre)) by now apply fnv1a_fold_range.
  change (fnv1a_fold (fnv1a_step (fnv1a_fold a pre) v1) suf
          = fnv1a_fold (fnv1a_step (fnv1a_fold a pre) v2) suf) in E.
  apply fnv1a_fold_inj in E; auto using fnv1a_step_range.
  exact (fnv1a_step_operand_inj _ v1 v2 Hacc H1 H2 E).
Qed.

Lemma well_formed_hash (sgn : bool) (t : Text) :
  well_formed t -> exists v, GenerateHash sgn t = Some v /\ is_uint32 v.
Proof.
  destruct t as [a|p]; cbn [well_formed GenerateHash]; intros H.
  - rewrite (array_fold sgn a H). eexists. split; [reflexivity|].
    apply fnv1a_fold_range, FNV_offset_uint32.
  - unfold HashHelper_ptr_Generate. rewrite (pointer_fold sgn p H).
    eexists. split; [reflexivity|].
    apply fnv1a_fold_range, FNV_offset_uint32.
Qed.

(** ** The static path and the explicit-length overload *)

(** X1: at every depth [I] the compile-time recursion [Hash<I>::GenerateHash]
    on an array returns what the two-argument run-time overload returns on the
    same chars with length [I], zero chars among them included; beyond the
    array neither has a value. *)
Theorem static_is_explicit_length (sgn : bool) (I : nat) (str : list char) :
  Hash_GenerateHash sgn I str = GenerateFNV1aHash_len sgn str I.
Proof.
  unfold GenerateFNV1aHash_len.
  destruct (le_lt_dec I (List.length str)) as [Hle|Hgt].
  - now rewrite Hash_fold, seed_fold.
  - now rewrite Hash_out_of_bounds, seed_out_of_bounds.
Qed.

(** X2: the array path never looks at the last element of the array: two
    arrays with the same leading chars hash alike whatever their last
    elements are, to the explicit-length hash of the leading chars.  An array
    that is not terminated loses its last char. *)
Theorem array_ignores_last_element (sgn : bool) (content : list char) (a b : char) :
  HashHelper_array_Generate sgn (content ++ [a])
  = HashHelper_array_Generate sgn (content ++ [b])
  /\ HashHelper_array_Generate sgn (content ++ [a])
     = GenerateFNV1aHash_len sgn content (List.length content).
Proof.
  rewrite !array_fold_content. split; [reflexivity|].
  unfold GenerateFNV1aHash_len. now rewrite seed_whole.
Qed.

(** X3: on every well-formed argument (a non-empty array, or a pointer to
    storage that holds a zero char) construction of a [StringHash] succeeds
    without a read outside the storage, and [Get()] reports the value of
    [GenerateHash], which lies in [0, 2^32). *)
Theorem wrapper_defined_and_in_range (sgn : bool) (t : Text) :
  well_formed t ->
  exists w : StringHash,
    StringHash_ctor sgn t = Some w /\
    GenerateHash sgn t = Some (fst (Get w)) /\
    is_uint32 (fst (Get w)).
Proof.
  intros Hwf. destruct (well_formed_hash sgn t Hwf) as [v [Hv Hr]].
  exists (mkStringHash v). unfold StringHash_ctor. rewrite Hv.
  repeat split; assumption || apply Hr.
Qed.

Lemma wrapper_defined_and_in_range_witness :
  well_formed (CharPointer (literal "abc")) /\
  exists w : StringHash,
    StringHash_ctor true (CharPointer (literal "abc")) = Some w /\
    GenerateHash true (CharPointer (literal "abc")) = Some (fst (Get w)) /\
    is_uint32 (fst (Get w)).
Proof.
  assert (H : well_formed (CharPointer (literal "abc"))) by (simpl; tauto).
  split; [exact H|].
  exact (wrapper_defined_and_in_range true (CharPointer (literal "abc")) H).
Defined.

(** X4: the loop of the three-argument overload reads exactly [length]
    chars and the recursion [Hash<I>] exactly the indices below [I]: each has
    a value if and only if the storage holds that many chars. *)
Theorem defined_iff_in_bounds (sgn : bool) (str : list char) (L : nat) (h : Z) :
  (GenerateFNV1aHash_seed sgn str L h <> None <-> (L <= List.length str)%nat)
  /\ (Hash_GenerateHash sgn L str <> None <-> (L <= List.length str)%nat).
Proof.
  destruct (le_lt_dec L (List.length str)) as [Hle|Hgt].
  - rewrite seed_fold, Hash_fold by exact Hle.
    split; split; intros; [exact Hle | discriminate | exact Hle | discriminate].
  - rewrite seed_out_of_bounds, Hash_out_of_bounds by exact Hgt.
    split; split; intros H; try lia; now elim H.
Qed.

(** X5: the three-argument overload depends on the first [length] chars
    only: on two storages that agree on their first [L] chars it returns the
    same value from the same seed, whatever follows. *)
Theorem explicit_length_reads_only_prefix
  (sgn : bool) (str1 str2 : list char) (L : nat) (h : Z) :
  (L <= List.length str1)%nat ->
  (L <= List.length str2)%nat ->
  firstn L str1 = firstn L str2 ->
  GenerateFNV1aHash_seed sgn str1 L h = GenerateFNV1aHash_seed sgn str2 L h.
Proof.
  intros H1 H2 E. now rewrite !seed_fold, E.
Qed.

Lemma explicit_length_reads_only_prefix_witness :
  (2 <= List.length (chars "abc"))%nat /\
  (2 <= List.length (chars "abXYZ"))%nat /\
  firstn 2 (chars "abc") = firstn 2 (chars "abXYZ") /\
  GenerateFNV1aHash_seed true (chars "abc") 2 9
  = GenerateFNV1aHash_seed true (chars "abXYZ") 2 9.
Proof.
  assert (H1 : (2 <= List.length (chars "abc"))%nat) by (simpl; lia).
  assert (H2 : (2 <= List.length (chars "abXYZ"))%nat) by (simpl; lia).
  assert (H3 : firstn 2 (chars "abc") = firstn 2 (chars "abXYZ")) by reflexivity.
  split; [exact H1|]. split; [exact H2|]. split; [exact H3|].
  exact (explicit_length_reads_only_prefix true (chars "abc") (chars "abXYZ") 2 9
           H1 H2 H3).
Defined.

(** X6: the three-argument overload keeps the accumulator a [uint32_t]:
    from a seed in [0, 2^32) and a length within the storage it returns a
    value in [0, 2^32). *)
Theorem seeded_hash_in_range (sgn : bool) (str : list char) (L : nat) (h : Z) :
  (L <= List.length str)%nat ->
  is_uint32 h ->
  exists v, GenerateFNV1aHash_seed sgn str L h = Some v /\ is_uint32 v.
Proof.
  intros HL Hh. rewrite (seed_fold sgn L str h HL).
  eexists. split; [reflexivity|]. now apply fnv1a_fold_range.
Qed.

Lemma seeded_hash_in_range_witness :
  (3 <= List.length (chars "abc"))%nat /\ is_uint32 7 /\
  exists v, GenerateFNV1aHash_seed false (chars "abc") 3 7 = Some v /\ is_uint32 v.
Proof.
  assert (H1 : (3 <= List.length (chars "abc"))%nat) by (simpl; lia).
  assert (H2 : is_uint32 7) by (unfold is_uint32, uint32_modulus; lia).
  split; [exact H1|]. split; [exact H2|].
  exact (seeded_hash_in_range false (chars "abc") 3 7 H1 H2).
Defined.

(** X7: the empty string hashes to the offset basis on every path: a
    pointer to a zero char (whatever is stored after it), an array of one
    element (whatever it is), and any storage with explicit length 0. *)
Theorem empty_string_hash (sgn : bool) (rest : list char) (c : char) :
  GenerateFNV1aHash sgn (x00 :: rest) = Some 2166136261
  /\ HashHelper_array_Generate sgn [c] = Some 2166136261
  /\ GenerateFNV1aHash_len sgn rest 0 = Some 2166136261.
Proof. repeat split; reflexivity. Qed.

(** ** Collisions *)

(** X8: two char sequences that differ in exactly one position never
    collide: hashed over their whole length from the same [uint32_t] seed the
    three-argument overload returns different values, and so does the array
    path on the two arrays (whatever their last elements). *)
Theorem single_char_difference_never_collides
  (sgn : bool) (pre suf : list char) (c1 c2 : char) (h : Z) :
  c1 <> c2 ->
  is_uint32 h ->
  GenerateFNV1aHash_seed sgn (pre ++ c1 :: suf) (List.length (pre ++ c1 :: suf)) h
  <> GenerateFNV1aHash_seed sgn (pre ++ c2 :: suf) (List.length (pre ++ c2 :: suf)) h
  /\ (forall t1 t2 : char,
        HashHelper_array_Generate sgn ((pre ++ c1 :: suf) ++ [t1])
        <> HashHelper_array_Generate sgn ((pre ++ c2 :: suf) ++ [t2])).
Proof.
  intros Hne Hh.
  assert (Hv : static_cast_uint32 sgn c1 <> static_cast_uint32 sgn c2)
    by (intros E; apply Hne; exact (static_cast_uint32_inj sgn c1 c2 E)).
  assert (differ : forall a, is_uint32 a ->
            fnv1a_fold a (operands sgn (pre ++ c1 :: suf))
            <> fnv1a_fold a (operands sgn (pre ++ c2 :: suf))).
  { intros a Ha. rewrite !operands_app. cbn [operands map].
    apply fold_differs_at_one; auto using static_cast_uint32_range.
    apply operands_uint32. }
  split.
  - rewrite !seed_whole. intros E. injection E as E. exact (differ h Hh E).
  - intros t1 t2. rewrite !array_fold_content. intros E. injection E as E.
    exact (differ FNV_offset FNV_offset_uint32 E).
Qed.

Lemma single_char_difference_never_collides_witness :
  x62 <> x7a /\ is_uint32 2166136261 /\
  (GenerateFNV1aHash_seed true (chars "a" ++ x62 :: chars "c")
     (List.length (chars "a" ++ x62 :: chars "c")) 2166136261
   <> GenerateFNV1aHash_seed true (chars "a" ++ x7a :: chars "c")
        (List.length (chars "a" ++ x7a :: chars "c")) 2166136261
   /\ (forall t1 t2 : char,
         HashHelper_array_Generate true ((chars "a" ++ x62 :: chars "c") ++ [t1])
         <> HashHelper_array_Generate true ((chars "a" ++ x7a :: chars "c") ++ [t2]))).
Proof.
  assert (H1 : x62 <> x7a) by discriminate.
  assert (H2 : is_uint32 2166136261) by (unfold is_uint32, uint32_modulus; lia).
  split; [exact H1|]. split; [exact H2|].
  exact (single_char_difference_never_collides true (chars "a") (chars "c")
           x62 x7a 2166136261 H1 H2).
Defined.

(** X9: the hash is not injective: there are two different strings on which
    the pointer path returns the same value, and on whose literal arrays the
    array path returns the same value. *)
Theorem hash_is_not_injective (sgn : bool) :
  exists s1 s2 : string,
    chars s1 <> chars s2 /\
    GenerateFNV1aHash sgn (literal s1) = GenerateFNV1aHash sgn (literal s2) /\
    HashHelper_array_Generate sgn (literal s1)
    = HashHelper_array_Generate sgn (literal s2) /\
    GenerateFNV1aHash sgn (literal s1) <> None.
Proof.
  exists "costarring"%string, "liquid"%string.
  split; [discriminate|].
  destruct sgn; repeat split; vm_compute; try reflexivity; discriminate.
Qed.

(** ** The signedness of plain [char] *)

(** X10: where plain [char] is unsigned, or on chars that are all in the
    7-bit range, both paths compute FNV-1a over the unsigned byte values of
    the chars; on 7-bit chars the result is the same for either signedness. *)
Theorem byte_value_hash (sgn : bool) (cs : list char) (h : Z) :
  sgn = false \/ Forall seven_bit cs ->
  GenerateFNV1aHash_seed sgn cs (List.length cs) h
  = Some (fnv1a_fold h (map byte_value cs))
  /\ HashHelper_array_Generate sgn (cs ++ [x00])
     = Some (fnv1a_fold FNV_offset (map byte_value cs)).
Proof.
  intros H.
  assert (E : operands sgn cs = map byte_value cs).
  { destruct H as [-> | H]; [apply operands_unsigned | now apply operands_seven_bit]. }
  rewrite seed_whole, array_fold_content, E. split; reflexivity.
Qed.

Lemma byte_value_hash_witness :
  (true = false \/ Forall seven_bit (chars "abc")) /\
  (GenerateFNV1aHash_seed true (chars "abc") (List.length (chars "abc")) 7
   = Some (fnv1a_fold 7 (map byte_value (chars "abc")))
   /\ HashHelper_array_Generate true (chars "abc" ++ [x00])
      = Some (fnv1a_fold FNV_offset (map byte_value (chars "abc")))).
Proof.
  assert (H : true = false \/ Forall seven_bit (chars "abc")).
  { right. repeat constructor. }
  split; [exact H|].
  exact (byte_value_hash true (chars "abc") 7 H).
Defined.

(** X11: where plain [char] is signed, a string whose chars are in the 7-bit
    range except for exactly one never hashes to its FNV-1a value over
    unsigned bytes, nor to what the same code returns where plain [char] is
    unsigned. *)
Theorem signed_char_one_high_byte_differs
  (pre suf : list char) (c : char) (h : Z) :
  Forall seven_bit pre ->
  Forall seven_bit suf ->
  128 <= byte_value c ->
  is_uint32 h ->
  GenerateFNV1aHash_seed true (pre ++ c :: suf) (List.length (pre ++ c :: suf)) h
  <> Some (fnv1a_fold h (map byte_value (pre ++ c :: suf)))
  /\ GenerateFNV1aHash_seed true (pre ++ c :: suf) (List.length (pre ++ c :: suf)) h
     <> GenerateFNV1aHash_seed false (pre ++ c :: suf) (List.length (pre ++ c :: suf)) h.
Proof.
  intros Hpre Hsuf Hc Hh.
  pose proof (byte_value_range c) as Hb.
  assert (D : fnv1a_fold h (operands true (pre ++ c :: suf))
              <> fnv1a_fold h (map byte_value (pre ++ c :: suf))).
  { rewrite operands_app, map_app. cbn [operands map].
    fold (operands true pre). fold (operands true suf).
    rewrite (operands_seven_bit true pre Hpre), (operands_seven_bit true suf Hsuf).
    apply fold_differs_at_one.
    - rewrite <- (operands_unsigned suf). apply operands_uint32.
    - exact Hh.
    - apply static_cast_uint32_range.
    - unfold is_uint32, uint32_modulus. lia.
    - rewrite (static_cast_signed_high c Hc). lia. }
  rewrite !seed_whole, operands_unsigned.
  split; intros E; injection E as E; exact (D E).
Qed.

Lemma signed_char_one_high_byte_differs_witness :
  Forall seven_bit (chars "a") /\ Forall seven_bit (chars "b") /\
  128 <= byte_value xe9 /\ is_uint32 2166136261 /\
  (GenerateFNV1aHash_seed true (chars "a" ++ xe9 :: chars "b")
     (List.length (chars "a" ++ xe9 :: chars "b")) 2166136261
   <> Some (fnv1a_fold 2166136261 (map byte_value (chars "a" ++ xe9 :: chars "b")))
   /\ GenerateFNV1aHash_seed true (chars "a" ++ xe9 :: chars "b")
        (List.length (chars "a" ++ xe9 :: chars "b")) 2166136261
      <> GenerateFNV1aHash_seed false (chars "a" ++ xe9 :: chars "b")
           (List.length (chars "a" ++ xe9 :: chars "b")) 2166136261).
Proof.
  assert (H1 : Forall seven_bit (chars "a")) by (repeat constructor).
  assert (H2 : Forall seven_bit (chars "b")) by (repeat constructor).
  assert (H3 : 128 <= byte_value xe9) by (vm_compute; discriminate).
  assert (H4 : is_uint32 2166136261) by (unfold is_uint32, uint32_modulus; lia).
  split; [exact H1|]. split; [exact H2|]. split; [exact H3|]. split; [exact H4|].
  exact (signed_char_one_high_byte_differs (chars "a") (chars "b") xe9 2166136261
           H1 H2 H3 H4).
Defined.

(** ** Continuing a compile-time hash at run time *)

(** X12: the compile-time hash of a literal is a seed from which the
    three-argument overload continues: hashing the chars [S2] from the array
    hash of [S1] returns the array hash of [S1] followed by [S2]. *)
Theorem static_hash_extends_at_run_time
  (sgn : bool) (S1 S2 : list char) (t t' : char) :
  exists h1 : Z,
    HashHelper_array_Generate sgn (S1 ++ [t]) = Some h1 /\
    is_uint32 h1 /\
    GenerateFNV1aHash_seed sgn S2 (List.length S2) h1
    = HashHelper_array_Generate sgn ((S1 ++ S2) ++ [t']).
Proof.
  exists (fnv1a_fold FNV_offset (operands sgn S1)).
  split; [apply array_fold_content|].
  split; [apply fnv1a_fold_range, FNV_offset_uint32|].
  now rewrite seed_whole, array_fold_content, operands_app, fold_app.
Qed.

(** ** The pointer overload and its terminator *)

(** X13: the one-argument overload has a value if and only if the storage
    behind the pointer holds a zero char, and then the value depends on the
    chars before the first zero only: whatever is stored after the
    terminator, it is the explicit-length hash of the chars before it. *)
Theorem pointer_overload_terminator
  (sgn : bool) (str content rest : list char) :
  (GenerateFNV1aHash sgn str <> None <-> In x00 str)
  /\ (~ In x00 content ->
      GenerateFNV1aHash sgn (content ++ x00 :: rest)
      = GenerateFNV1aHash_len sgn content (List.length content)).
Proof.
  split; [split|].
  - intros H. destruct (in_dec Byte.byte_eq_dec x00 str) as [Hin|Hnin]; [exact Hin|].
    exfalso. apply H. unfold GenerateFNV1aHash.
    now rewrite (strlen_unterminated str Hnin).
  - intros Hin. now rewrite (pointer_fold sgn str Hin).
  - intros Hnz. rewrite pointer_fold by (apply in_or_app; right; now left).
    rewrite before_first_zero_app by exact Hnz.
    unfold GenerateFNV1aHash_len. now rewrite seed_whole.
Qed.

Lemma pointer_overload_terminator_witness :
  ~ In x00 (chars "abc") /\
  (GenerateFNV1aHash true (chars "abc") <> None <-> In x00 (chars "abc")) /\
  GenerateFNV1aHash true (chars "abc" ++ x00 :: chars "xyz")
  = GenerateFNV1aHash_len true (chars "abc") (List.length (chars "abc")).
Proof.
  assert (H : ~ In x00 (chars "abc")) by (simpl; intuition discriminate).
  split; [exact H|].
  destruct (pointer_overload_terminator true (chars "abc") (chars "abc")
              (chars "xyz")) as [Hiff Hval].
  split; [exact Hiff | exact (Hval H)].
Defined.
